(** * Blockchain Transaction Explainer: the front end's decision logic

    A shallow embedding of the pure logic of the React components
    (TransactionInput, App, ExplanationPanel, TransactionClassification,
    TokenFlowDiagram, FraudRiskMeter, GasComparisonChart) and of the rule
    engine's risk tiers, with the properties the specification states
    about them.

    Conventions of the embedding.
    - A JavaScript string is the list of its UTF-16 code units ([jsstring]).
    - Where only comparisons and bounds matter, a JavaScript number is a
      rational ([Q]): every finite double is one and comparisons of
      doubles are comparisons of the rationals they denote. Where the
      digits of a computed number are displayed (the gas chart's
      percentage), numbers are IEEE 754 doubles ([float]) with their own
      rounded arithmetic.
    - A JSON response is a [value]; an absent property reads as
      [VUndefined], as it does in JavaScript. *)

From Stdlib Require Import String Ascii DecimalString.
From Stdlib Require Import List ZArith NArith QArith Qround Qabs Qminmax.
From Stdlib Require Import Qpower Floats.
From Stdlib Require Import Bool Lia Lqa Sorted Permutation.
Import ListNotations.

Local Open Scope Q_scope.
Local Set Warnings "-register-all".

(* ================================================================== *)
(** * Part I: the embedding *)
(* ================================================================== *)

(** ** JavaScript strings *)

Module JS.

Definition jsstring : Type := list N.

(** The code units of an ASCII literal of the source. *)
Definition lit (s : string) : jsstring :=
  map N_of_ascii (list_ascii_of_string s).

Definition inRange (lo hi c : N) : bool := ((lo <=? c) && (c <=? hi))%N.

(** ECMAScript WhiteSpace and LineTerminator code points, the characters
    [String.prototype.trim] strips. *)
Definition isWhiteSpace (c : N) : bool :=
  (inRange 9 13 c           (* TAB, LF, VT, FF, CR *)
   || (c =? 32)             (* SPACE *)
   || (c =? 160)            (* NO-BREAK SPACE *)
   || (c =? 5760)           (* OGHAM SPACE MARK *)
   || inRange 8192 8202 c   (* EN QUAD .. HAIR SPACE *)
   || inRange 8232 8233 c   (* LINE / PARAGRAPH SEPARATOR *)
   || (c =? 8239)           (* NARROW NO-BREAK SPACE *)
   || (c =? 8287)           (* MEDIUM MATHEMATICAL SPACE *)
   || (c =? 12288)          (* IDEOGRAPHIC SPACE *)
   || (c =? 65279))%N.      (* ZERO WIDTH NO-BREAK SPACE *)

Fixpoint trimStart (s : jsstring) : jsstring :=
  match s with
  | c :: s' => if isWhiteSpace c then trimStart s' else s
  | [] => []
  end.

Definition trimEnd (s : jsstring) : jsstring := rev (trimStart (rev s)).

Definition trim (s : jsstring) : jsstring := trimStart (trimEnd s).

(** [s.slice(start, end)] with the relative (possibly negative) indices
    that [String.prototype.slice] and [Array.prototype.slice] share; [end]
    absent means the length. *)
Definition relIndex (len i : Z) : Z :=
  if (i <? 0)%Z then Z.max (len + i) 0 else Z.min i len.

Definition slice {A : Type} (s : list A) (start : Z) (stop : option Z)
  : list A :=
  let len := Z.of_nat (length s) in
  let from := relIndex len start in
  let to := match stop with Some e => relIndex len e | None => len end in
  firstn (Z.to_nat (Z.max (to - from) 0)) (skipn (Z.to_nat from) s).

(** Strings compare by code units, as [<] does on JavaScript strings. *)
Fixpoint str_ltb (a b : jsstring) : bool :=
  match a, b with
  | [], [] => false
  | [], _ :: _ => true
  | _ :: _, [] => false
  | x :: a', y :: b' => ((x <? y) || ((x =? y) && str_ltb a' b'))%N
  end.

Definition str_eqb (a b : jsstring) : bool :=
  if list_eq_dec N.eq_dec a b then true else false.

(** *** JSON values and the operators the components use on them *)

Inductive value : Type :=
| VUndefined
| VNull
| VBool (b : bool)
| VNum (q : Q)
| VStr (s : jsstring)
| VArr (items : list value)
| VObj (props : list (jsstring * value)).

(** ToBoolean. *)
Definition truthy (v : value) : bool :=
  match v with
  | VUndefined | VNull => false
  | VBool b => b
  | VNum q => negb (Qeq_bool q 0)
  | VStr s => match s with [] => false | _ => true end
  | VArr _ | VObj _ => true
  end.

(** [a || b]. *)
Definition or_else (a b : value) : value := if truthy a then a else b.

(** Property read; the names of an object are distinct. *)
Fixpoint lookup (k : jsstring) (props : list (jsstring * value)) : value :=
  match props with
  | [] => VUndefined
  | (k', v) :: rest => if str_eqb k k' then v else lookup k rest
  end.

(** [o?.k]: [undefined] on a nullish object, the property otherwise (a
    primitive has no own data property of the names used here). *)
Definition opt_get (o : value) (k : string) : value :=
  match o with
  | VObj props => lookup (lit k) props
  | _ => VUndefined
  end.

(** *** Numbers *)

(** [a > b] and [a < b]. *)
Definition gt (a b : Q) : bool :=
  match a ?= b with Gt => true | _ => false end.

Definition lt (a b : Q) : bool := gt b a.

(** [Math.min(a, b)]. *)
Definition Math_min (a b : Q) : Q := if Qle_bool a b then a else b.

Definition digitsOf (n : Z) : jsstring :=
  lit (NilZero.string_of_uint (N.to_uint (Z.to_N n))).

(** The integer nearest to [|x| * 10^f], the larger one on a tie. *)
Definition toFixedInt (f : nat) (x : Q) : Z :=
  Qfloor (Qabs x * inject_Z (10 ^ Z.of_nat f) + (1 # 2)).

(** The integer [n] written with [f] digits after the point, padded with
    zeros to at least one digit before it, behind its sign. *)
Definition formatFixed (f : nat) (negative : bool) (n : Z) : jsstring :=
  let m := digitsOf n in
  let m :=
    match f with
    | O => m
    | _ =>
        let m := repeat 48%N (f + 1 - length m) ++ m in
        let k := length m in
        firstn (k - f) m ++ [46%N] ++ skipn (k - f) m
    end in
  if negative then 45%N :: m else m.

(** *** Doubles *)

(** The value of the finite double with mantissa [m] and exponent [e]. *)
Definition exactValue (m : positive) (e : Z) : Q :=
  inject_Z (Z.pos m) * (2 # 1) ^ e.

Definition signed (negative : bool) (s : jsstring) : jsstring :=
  if negative then 45%N :: s else s.

Fixpoint dropZeros (d : jsstring) : jsstring :=
  match d with
  | c :: d' => if (c =? 48)%N then dropZeros d' else d
  | [] => []
  end.

(** Number::toString of a double [m * 2^e] that is at least [10^21], an
    integer: the decimal with the fewest digits that still rounds to the
    double (to nearest, ties to the even mantissa), the closest one when
    there are several, in exponent notation. *)
Section ToStringLarge.
Variables (m : positive) (e : Z).
Local Open Scope Z_scope.

Definition whole : Z := Z.pos m * 2 ^ e.

(** Half the distance to the next double above and below. *)
Definition gapAbove : Z := 2 ^ (e - 1).

Definition gapBelow : Z :=
  if Z.pos m =? 2 ^ 52 then 2 ^ (e - 2) else 2 ^ (e - 1).

Definition roundsToDouble (c : Z) : bool :=
  if Z.even (Z.pos m)
  then (whole - gapBelow <=? c) && (c <=? whole + gapAbove)
  else (whole - gapBelow <? c) && (c <? whole + gapAbove).

Definition closer (u c1 c2 : Z) : Z :=
  match (whole - c1) ?= (c2 - whole) with
  | Lt => c1
  | Gt => c2
  | Eq => if Z.even (c1 / u) then c1 else c2
  end.

(** The multiples of the unit [u] on either side of the double, for
    units [10^(n-1)], [10^(n-2)], ... until one of them rounds to it. *)
Fixpoint shortest (fuel : nat) (u : Z) : Z :=
  match fuel with
  | O => whole
  | S fuel' =>
      let c1 := (whole / u) * u in
      let c2 := c1 + u in
      match roundsToDouble c1, roundsToDouble c2 with
      | true, true => closer u c1 c2
      | true, false => c1
      | false, true => c2
      | false, false => shortest fuel' (u / 10)
      end
  end.

Definition toStringLarge : jsstring :=
  let nd := length (digitsOf whole) in
  let c := shortest nd (10 ^ Z.of_nat (nd - 1)) in
  let ds := digitsOf c in
  let n := Z.of_nat (length ds) in
  match rev (dropZeros (rev ds)) with
  | d1 :: rest =>
      (d1 :: match rest with [] => [] | _ => 46%N :: rest end)
      ++ lit "e+" ++ digitsOf (n - 1)
  | [] => []
  end.

End ToStringLarge.

(** [x.toFixed(f)] (Number.prototype.toFixed) on a double: NaN and the
    infinities by name; otherwise the sign, and then, below [10^21], the
    integer nearest to [|x| * 10^f] (the value of the double, not of the
    expression it came from; the larger integer on a tie) with [f]
    digits after the point, and from [10^21] on the text of
    Number::toString. Minus zero is not below zero and has no sign. *)
Definition toFixed (f : nat) (x : float) : jsstring :=
  match Prim2SF x with
  | S754_nan => lit "NaN"
  | S754_infinity s => signed s (lit "Infinity")
  | S754_zero _ => formatFixed f false 0
  | S754_finite s m e =>
      if Qle_bool (inject_Z (10 ^ 21)) (exactValue m e)
      then signed s (toStringLarge m e)
      else formatFixed f s (toFixedInt f (exactValue m e))
  end.

(** *** Exceptions *)

Inductive result (A : Type) : Type :=
| Ok (a : A)
| Throw (error : jsstring).
Arguments Ok {A} a.
Arguments Throw {A} error.

Definition bind {A B : Type} (m : result A) (k : A -> result B) : result B :=
  match m with
  | Ok a => k a
  | Throw e => Throw e
  end.

Notation "x <- m ;; k" := (bind m (fun x => k))
  (at level 61, m at next level, right associativity).

Definition TypeError : jsstring := lit "TypeError".

(** Property reads and method calls on a possibly absent string: reading
    a property of [undefined] throws. *)
Definition get_length (s : option jsstring) : result Z :=
  match s with
  | Some s => Ok (Z.of_nat (length s))
  | None => Throw TypeError
  end.

Definition call_slice (s : option jsstring) (start : Z) (stop : option Z)
  : result jsstring :=
  match s with
  | Some s => Ok (slice s start stop)
  | None => Throw TypeError
  end.

(** *** Array.prototype.sort

    The sort is stable and the comparator of the source is consistent, so
    the result is determined whatever algorithm the engine runs: [a] stays
    before a later [b] unless [cmp a b > 0]. *)
Section Sort.
Context {A : Type} (cmp : A -> A -> Q).

Fixpoint insert (x : A) (l : list A) : list A :=
  match l with
  | [] => [x]
  | y :: l' => if gt (cmp x y) 0 then y :: insert x l' else x :: y :: l'
  end.

Fixpoint sort (l : list A) : list A :=
  match l with
  | [] => []
  | x :: l' => insert x (sort l')
  end.

End Sort.

End JS.
Export JS.

(** ** TransactionInput: the submission handler *)

Module TransactionInput.

(** [a-fA-F0-9] *)
Definition hexClass (c : N) : bool :=
  inRange 97 102 c || inRange 65 70 c || inRange 48 57 c.

(** [cls{n}]: consume exactly [n] characters of the class; the rest of the
    input on success. *)
Fixpoint repeatClass (cls : N -> bool) (n : nat) (s : jsstring)
  : option jsstring :=
  match n with
  | O => Some s
  | S n' =>
      match s with
      | c :: s' => if cls c then repeatClass cls n' s' else None
      | [] => None
      end
  end.

(** [/^0x[a-fA-F0-9]{64}$/.test(hash)]: no flags, so [^] and [$] are the
    two ends of the input. *)
Definition validateHash (hash : jsstring) : bool :=
  match hash with
  | c0 :: c1 :: rest =>
      (c0 =? 48)%N && (c1 =? 120)%N &&
      match repeatClass hexClass 64 rest with
      | Some [] => true
      | _ => false
      end
  | _ => false
  end.

(** The component's state ([useState]) and what a submit does to the
    outside: the calls of the [onSubmit] prop, in order. *)
Record state : Type := { txHash : jsstring; error : jsstring }.

Definition setError (msg : jsstring) (st : state) : state :=
  {| txHash := txHash st; error := msg |}.

Definition msgEmpty : jsstring := lit "Please enter a transaction hash".
Definition msgInvalid : jsstring :=
  lit "Invalid transaction hash format. Must be 0x followed by 64 hex characters.".

Definition handleSubmit (st : state) : state * list jsstring :=
  let st := setError [] st in
  let trimmedHash := trim (txHash st) in
  if negb (truthy (VStr trimmedHash)) then (setError msgEmpty st, [])
  else if negb (validateHash trimmedHash) then (setError msgInvalid st, [])
  else (st, [trimmedHash]).

(** The specification's wording of a well-formed hash: the two characters
    0x, then exactly 64 characters, each a hexadecimal digit. *)
Definition hexDigits : jsstring := lit "0123456789abcdefABCDEF".

Definition is_tx_hash (s : jsstring) : Prop :=
  exists body, s = lit "0x" ++ body /\ length body = 64%nat
               /\ Forall (fun c => In c hexDigits) body.


(** Texts of white space only, and texts without any. *)
Definition blank (ws : jsstring) : Prop :=
  Forall (fun c => isWhiteSpace c = true) ws.

Definition solid (s : jsstring) : Prop :=
  Forall (fun c => isWhiteSpace c = false) s.

(** *** The other handlers of the form *)

Definition setTxHash (hash : jsstring) (st : state) : state :=
  {| txHash := hash; error := error st |}.

(** [onChange] of the input: [setTxHash(e.target.value); setError('')]. *)
Definition onChange (text : jsstring) (st : state) : state :=
  setError [] (setTxHash text st).

(** [handlePaste]: the clipboard read may reject, which is caught and
    logged; an empty text is ignored. *)
Definition handlePaste (clipboard : result jsstring) (st : state) : state :=
  match clipboard with
  | Ok text =>
      if truthy (VStr text) then setError [] (setTxHash (trim text) st)
      else st
  | Throw _ => st
  end.

Definition setExample (st : state) : state :=
  setError []
    (setTxHash
       (lit "0x5c504ed432cb51138bcf09aa5e8a410dd4a1e204ef84bfed1be16dfba1b22060")
       st).

End TransactionInput.

(** ** App: the props handed to the charts *)

Module App.

Record FraudRiskMeterProps : Type := {
  riskScore : value;
  riskLevel : value;
  riskFactors : value
}.

Record GasComparisonChartProps : Type := {
  predicted : value;
  actual : value;
  efficiency : value;
  feeUsd : value;
  explanation : value
}.

Record TransactionClassificationProps : Type := {
  category : value;
  confidence : value;
  allCategories : value
}.

(** [result.fraud_analysis?.risk_score || 0] and its neighbours. *)
Definition fraudRiskMeterProps (result : value) : FraudRiskMeterProps :=
  let fraud_analysis := opt_get result "fraud_analysis" in
  {| riskScore := or_else (opt_get fraud_analysis "risk_score") (VNum 0);
     riskLevel := or_else (opt_get fraud_analysis "risk_level")
                          (VStr (lit "UNKNOWN"));
     riskFactors := or_else (opt_get fraud_analysis "risk_factors") (VArr [])
  |}.

Definition gasComparisonChartProps (result : value)
  : GasComparisonChartProps :=
  let gas_analysis := opt_get result "gas_analysis" in
  {| predicted := or_else (opt_get gas_analysis "predicted_gas_gwei") (VNum 0);
     actual := or_else (opt_get gas_analysis "actual_gas_gwei") (VNum 0);
     efficiency := or_else (opt_get gas_analysis "efficiency")
                           (VStr (lit "NORMAL"));
     feeUsd := or_else (opt_get gas_analysis "fee_usd") (VNum 0);
     explanation := opt_get gas_analysis "explanation"
  |}.

Definition transactionClassificationProps (result : value)
  : TransactionClassificationProps :=
  let classification := opt_get result "classification" in
  {| category := or_else (opt_get classification "category")
                         (VStr (lit "Unknown"));
     confidence := or_else (opt_get classification "confidence") (VNum 0);
     allCategories := or_else (opt_get classification "all_categories")
                              (VObj [])
  |}.

End App.

(** ** App: one request, and what the page shows *)

Module AppState.

Record state : Type := { loading : bool; result : value; error : value }.

(** How the awaited [explainTransaction] call settles. *)
Inductive settled : Type :=
| Resolved (data : value)
| Rejected (err : value).

Inductive toast : Type :=
| ToastSuccess (message : jsstring)
| ToastError (message : value).

(** [o.k] without the question mark: it throws on [undefined] and [null]. *)
Definition get (o : value) (k : string) : JS.result value :=
  match o with
  | VUndefined | VNull => Throw TypeError
  | _ => Ok (opt_get o k)
  end.

(** [err.response?.data?.detail || err.message
     || 'Failed to analyze transaction'] *)
Definition errorMessage (err : value) : JS.result value :=
  response <- get err "response" ;;
  let detail := opt_get (opt_get response "data") "detail" in
  if truthy detail then Ok detail
  else
    message <- get err "message" ;;
    Ok (or_else message (VStr (lit "Failed to analyze transaction"))).

(** Up to the [await]: [setLoading(true); setError(null); setResult(null)]. *)
Definition begin (st : state) : state :=
  {| loading := true; result := VNull; error := VNull |}.

(** After the [await]: the [try] branch or the [catch] branch, then
    [finally]. When the [catch] branch itself throws, [finally] still
    runs and nothing else is set. *)
Definition finish (outcome : settled) (st : state) : state * list toast :=
  match outcome with
  | Resolved data =>
      ({| loading := false; result := data; error := error st |},
       [ToastSuccess (lit "Transaction analyzed successfully!")])
  | Rejected err =>
      match errorMessage err with
      | Ok message =>
          ({| loading := false; result := result st; error := message |},
           [ToastError message])
      | Throw _ =>
          ({| loading := false; result := result st; error := error st |},
           [])
      end
  end.

Definition handleSubmit (outcome : settled) (st : state)
  : state * list toast :=
  finish outcome (begin st).

(** The conditions that guard the four conditional blocks of the page:
    [loading && ...], [error && ...], [result && !loading && ...] and
    [!result && !loading && !error && ...]. A block whose condition holds
    is the block React is asked to render; what rendering its children
    then does (the error block throws on a message that is or holds an
    object) is not part of the condition. *)
Definition showLoading (st : state) : bool := loading st.

Definition showError (st : state) : bool := truthy (error st).

Definition showResults (st : state) : bool :=
  truthy (result st) && negb (loading st).

Definition showEmpty (st : state) : bool :=
  negb (truthy (result st)) && negb (loading st)
  && negb (truthy (error st)).

Definition nullish (v : value) : Prop := v = VUndefined \/ v = VNull.

End AppState.

(** ** GasComparisonChart *)

Module GasComparisonChart.

(** The two gas prices are doubles, and so is everything computed from
    them: [-], [/], [*] and [>] are the operations of IEEE 754. *)
Definition difference (predicted actual : float) : float :=
  (actual - predicted)%float.

(** [predicted > 0 ? ((difference / predicted) * 100).toFixed(1) : 0]:
    a string in the first case, the number 0 in the second. *)
Definition diffPercent (predicted actual : float) : value :=
  if (0 <? predicted)%float
  then VStr (toFixed 1 ((difference predicted actual / predicted) * 100)%float)
  else VNum 0.

Definition getEfficiencyText (efficiency : value) : jsstring :=
  match efficiency with
  | VStr e =>
      if str_eqb e (lit "EXCELLENT") then lit "Below predicted - Great timing!"
      else if str_eqb e (lit "NORMAL") then lit "Within expected range"
      else if str_eqb e (lit "ABOVE_AVERAGE") then lit "Higher than average"
      else if str_eqb e (lit "CONGESTED") then lit "Network congestion detected"
      else if str_eqb e (lit "HIGH") then lit "Significantly elevated"
      else lit "Unknown"
  | _ => lit "Unknown"
  end.

(** [explanation || getEfficiencyText()] *)
Definition gasExplanation (efficiency explanation : value) : value :=
  or_else explanation (VStr (getEfficiencyText efficiency)).

(** The specification's wording of the relative deviation, on doubles. *)
Definition gas_deviation_spec (predicted actual : float) : float :=
  if (0 <? predicted)%float then ((actual - predicted) / predicted)%float
  else 0%float.


Definition gray : jsstring := lit "#6b7280".

Definition getEfficiencyColor (efficiency : value) : jsstring :=
  match efficiency with
  | VStr e =>
      if str_eqb e (lit "EXCELLENT") then lit "#10b981"
      else if str_eqb e (lit "NORMAL") then lit "#6366f1"
      else if str_eqb e (lit "ABOVE_AVERAGE") then lit "#f59e0b"
      else if str_eqb e (lit "CONGESTED") || str_eqb e (lit "HIGH")
           then lit "#ef4444"
      else gray
  | _ => gray
  end.

End GasComparisonChart.

(** ** FraudRiskMeter *)

Module FraudRiskMeter.

Definition percentage (riskScore : Q) : Q := Math_min (riskScore * 100) 100.

(** The needle: [(percentage / 100) * 180 - 90] degrees. *)
Definition rotation (riskScore : Q) : Q :=
  (percentage riskScore / 100) * 180 - 90.

(** The coloured arc ends at [percentage * 1.8] degrees. *)
Definition arcEnd (riskScore : Q) : Q := percentage riskScore * (18 # 10).


Definition gray : jsstring * jsstring :=
  (lit "#6b7280", lit "rgba(107, 114, 128, 0.1)").

(** [getColor]: the pair [main], [bg]. *)
Definition getColor (riskLevel : value) : jsstring * jsstring :=
  match riskLevel with
  | VStr l =>
      if str_eqb l (lit "LOW")
      then (lit "#10b981", lit "rgba(16, 185, 129, 0.1)")
      else if str_eqb l (lit "MEDIUM")
      then (lit "#f59e0b", lit "rgba(245, 158, 11, 0.1)")
      else if str_eqb l (lit "HIGH")
      then (lit "#ef4444", lit "rgba(239, 68, 68, 0.1)")
      else if str_eqb l (lit "CRITICAL")
      then (lit "#dc2626", lit "rgba(220, 38, 38, 0.1)")
      else gray
  | _ => gray
  end.


(** The levels [getColor] tells apart. *)
Definition riskLevels : list value :=
  [VStr (lit "LOW"); VStr (lit "MEDIUM"); VStr (lit "HIGH");
   VStr (lit "CRITICAL")].

End FraudRiskMeter.

(** ** TokenFlowDiagram *)

Module TokenFlowDiagram.

(** [isToken ? null : value * 2500]; [None] is [null]. [isToken] is the
    truthiness of the prop. *)
Definition usdValue (isToken : bool) (value : Q) : option Q :=
  if isToken then None else Some (value * 2500).

(** What the first information card shows under its label: the token
    symbol as it is, or a dollar sign followed by the amount as
    [toLocaleString] writes it with two fraction digits (the text depends
    on the browser's locale; the card is modelled by the amount it
    formats, [None] when the optional call is skipped). *)
Inductive cardContent : Type :=
| Symbol (tokenSymbol : value)
| Dollars (amount : option Q).

Definition valueCard (isToken : bool) (tokenSymbol : value) (value : Q)
  : jsstring * cardContent :=
  (if isToken then lit "Token" else lit "USD Value (approx)",
   if isToken then Symbol tokenSymbol
   else Dollars (usdValue isToken value)).

(** [tokenAmount > n] with [tokenAmount] possibly [undefined]: a
    comparison with [undefined] is false. *)
Definition amount_gt (tokenAmount : option Q) (n : Q) : bool :=
  match tokenAmount with
  | Some a => gt a n
  | None => false
  end.

(** The Transfer Size card. *)
Definition transferSize (isToken : bool) (tokenAmount : option Q) (value : Q)
  : jsstring :=
  if isToken
  then (if amount_gt tokenAmount 10000 then lit "Large"
        else if amount_gt tokenAmount 100 then lit "Medium"
        else lit "Small")
  else (if gt value 10 then lit "High Value"
        else if gt value 1 then lit "Medium"
        else lit "Small").

(** The specification's value tiers, named as the card names them. *)
Definition value_tier_spec (amount : Q) : jsstring :=
  if lt amount 1 then lit "Small"
  else if Qle_bool amount 10 then lit "Medium"
  else lit "High Value".


(** [addr || 'Unknown'], on an address that is a string or absent. *)
Definition orUnknown (addr : option jsstring) : jsstring :=
  match addr with
  | Some (c :: s) => c :: s
  | _ => lit "Unknown"
  end.

Definition isFalsy (addr : option jsstring) : bool :=
  match addr with
  | Some s => negb (truthy (VStr s))
  | None => true
  end.

(** [if (!addr || addr.length < 15) return addr || 'Unknown';
     return `${addr.slice(0, 6)}...${addr.slice(-4)}`] *)
Definition formatAddress (addr : option jsstring) : result jsstring :=
  if isFalsy addr then Ok (orUnknown addr)
  else
    len <- get_length addr ;;
    if (len <? 15)%Z then Ok (orUnknown addr)
    else
      head <- call_slice addr 0 (Some 6%Z) ;;
      tail <- call_slice addr (-4) None ;;
      Ok (head ++ lit "..." ++ tail).

(** The order of the three sizes a card can show. *)
Definition sizeRank (label : jsstring) : nat :=
  if str_eqb label (lit "Small") then 0
  else if str_eqb label (lit "Medium") then 1
  else 2.

End TokenFlowDiagram.

(** ** TransactionClassification *)

Module TransactionClassification.

(** [Object.entries(allCategories || {})]: the category names with their
    probabilities, in property order (for names that are not array
    indices, the order in which the response lists them). *)
Definition distribution : Type := list (jsstring * Q).

(** [([, a], [, b]) => b - a] *)
Definition byProbabilityDesc (x y : jsstring * Q) : Q := snd y - snd x.

Definition sortedCategories (allCategories : distribution) : distribution :=
  slice (sort byProbabilityDesc allCategories) 0 (Some 5%Z).

(** The specification's ranking: descending probability, equal
    probabilities in alphabetical order of the names, the first [K]. *)
Definition rankBefore (x y : jsstring * Q) : Q :=
  match snd y ?= snd x with
  | Lt => -1
  | Gt => 1
  | Eq => if str_ltb (fst x) (fst y) then -1
          else if str_ltb (fst y) (fst x) then 1 else 0
  end.

Definition category_ranking_spec (K : nat) (d : distribution) : distribution :=
  firstn K (sort rankBefore d).

Definition descending (x y : jsstring * Q) : Prop := snd y <= snd x.

Definition hasProbability (p : Q) (x : jsstring * Q) : bool :=
  Qeq_bool (snd x) p.


(** [sortedCategories.length > 1]: whether the All Predictions list is
    rendered. *)
Definition showAllPredictions (allCategories : distribution) : bool :=
  (1 <? length (sortedCategories allCategories))%nat.

End TransactionClassification.

(** ** ExplanationPanel *)

Module ExplanationPanel.

(** The last [n] characters of a string. *)
Definition lastChars (n : nat) (s : jsstring) : jsstring :=
  rev (firstn n (rev s)).

(** [!addr], on an address that is a string or absent. *)
Definition falsy (addr : option jsstring) : bool :=
  match addr with
  | Some s => negb (truthy (VStr s))
  | None => true
  end.

(** [if (!addr || addr.length < 15) return addr;
     return `${addr.slice(0, 8)}...${addr.slice(-6)}`] *)
Definition formatAddress (addr : option jsstring)
  : result (option jsstring) :=
  if falsy addr then Ok addr
  else
    len <- get_length addr ;;
    if (len <? 15)%Z then Ok addr
    else
      head <- call_slice addr 0 (Some 8%Z) ;;
      tail <- call_slice addr (-6) None ;;
      Ok (Some (head ++ lit "..." ++ tail)).


(** The first 8 characters, three dots, the last 6 characters. *)
Definition abbreviated (a : jsstring) : jsstring :=
  firstn 8 a ++ lit "..." ++ lastChars 6 a.

End ExplanationPanel.

(** ** Rule engine: risk tiers *)

Module RuleEngine.

Inductive RiskLevel : Type := LOW | MEDIUM | HIGH | CRITICAL | UNKNOWN.

Definition InvariantViolation : jsstring := lit "InvariantViolation".

(** Modelled from the spec: the rule engine's risk_level is part of the
    Python back end, of which the sources hold no file (the front end only
    colours the level it receives). Section 4.3: a score below 0 or above
    1 fails fast with InvariantViolation; otherwise [0,0.30) is LOW,
    [0.30,0.60) MEDIUM, [0.60,0.80) HIGH and [0.80,1.0] CRITICAL. *)
Definition risk_level (score : Q) : result RiskLevel :=
  if lt score 0 || gt score 1 then Throw InvariantViolation
  else if lt score (30 # 100) then Ok LOW
  else if lt score (60 # 100) then Ok MEDIUM
  else if lt score (80 # 100) then Ok HIGH
  else Ok CRITICAL.

(** The four intervals of the specification, as sets of scores. *)
Definition in_tier (t : RiskLevel) (score : Q) : Prop :=
  match t with
  | LOW => 0 <= score /\ score < 30 # 100
  | MEDIUM => 30 # 100 <= score /\ score < 60 # 100
  | HIGH => 60 # 100 <= score /\ score < 80 # 100
  | CRITICAL => 80 # 100 <= score /\ score <= 1
  | UNKNOWN => False
  end.

End RuleEngine.

(** ** Sample responses and inputs *)

Module Samples.

(** The demonstration hash of the input form ([setExample]). *)
Definition exampleHash : jsstring :=
  lit "0x5c504ed432cb51138bcf09aa5e8a410dd4a1e204ef84bfed1be16dfba1b22060".

Definition fraudLow : value :=
  VObj [(lit "risk_score", VNum (12 # 100));
        (lit "risk_level", VStr (lit "LOW"));
        (lit "risk_factors", VArr [])].

Definition gasNormal : value :=
  VObj [(lit "predicted_gas_gwei", VNum (235 # 10));
        (lit "actual_gas_gwei", VNum (255 # 10));
        (lit "efficiency", VStr (lit "NORMAL"));
        (lit "fee_usd", VNum (5 # 2))].

(** A response whose gas prediction is missing. *)
Definition withoutGas : value :=
  VObj [(lit "summary", VStr (lit "ETH transfer"));
        (lit "fraud_analysis", fraudLow)].

(** A response whose fraud prediction is missing. *)
Definition withoutFraud : value :=
  VObj [(lit "summary", VStr (lit "ETH transfer"));
        (lit "gas_analysis", gasNormal)].

(** Two categories of equal probability, listed against the alphabet. *)
Definition tied : list (jsstring * Q) :=
  [(lit "Token Transfer", 1 # 2); (lit "DEX Swap", 1 # 2)].

Definition tiedSwapped : list (jsstring * Q) :=
  [(lit "DEX Swap", 1 # 2); (lit "Token Transfer", 1 # 2)].


(** Seven categories, two of them tied at the top. *)
Definition sevenCategories : list (jsstring * Q) :=
  [(lit "Simple Transfer", 10 # 100); (lit "Token Transfer", 30 # 100);
   (lit "DEX Swap", 20 # 100); (lit "NFT Transaction", 30 # 100);
   (lit "Staking/Yield", 5 # 100); (lit "Bridge Transfer", 3 # 100);
   (lit "Other", 2 # 100)].

Definition address : jsstring :=
  lit "0x742d35Cc6634C0532925a3b844Bc454e4438f44e".

End Samples.

(* ================================================================== *)
(** * Part II: properties *)
(* ================================================================== *)

Module TransactionInputFacts.
Import TransactionInput.

Lemma hexClass_spec c : hexClass c = true <-> In c hexDigits.
Proof.
  unfold hexClass, inRange, hexDigits. cbn.
  rewrite !orb_true_iff, !andb_true_iff, !N.leb_le.
  split.
  - intros H.
    assert (Hc : (c = 48 \/ c = 49 \/ c = 50 \/ c = 51 \/ c = 52 \/ c = 53
                 \/ c = 54 \/ c = 55 \/ c = 56 \/ c = 57
                 \/ c = 97 \/ c = 98 \/ c = 99 \/ c = 100 \/ c = 101 \/ c = 102
                 \/ c = 65 \/ c = 66 \/ c = 67 \/ c = 68 \/ c = 69 \/ c = 70)%N)
      by lia.
    intuition (subst; tauto).
  - intros H. intuition (subst; lia).
Qed.

Lemma repeatClass_exact cls n : forall s,
  repeatClass cls n s = Some [] <-> (length s = n /\ forallb cls s = true).
Proof.
  induction n as [|n IH]; intros s; cbn.
  - split.
    + intros [= ->]. auto.
    + intros [H _]. destruct s; [reflexivity|discriminate].
  - destruct s as [|c s]; cbn.
    + split; [discriminate|intros [H _]; discriminate].
    + destruct (cls c); cbn.
      * rewrite IH. split; intros [H1 H2]; split; auto; lia.
      * split; [discriminate|intros [_ H]; discriminate].
Qed.

Lemma validateHash_spec s : validateHash s = true <-> is_tx_hash s.
Proof.
  unfold validateHash, is_tx_hash.
  destruct s as [|c0 [|c1 rest]].
  - split; [discriminate|]. intros (b & H & _). discriminate.
  - split; [discriminate|]. intros (b & H & _). discriminate.
  - split.
    + rewrite !andb_true_iff, !N.eqb_eq. intros [[-> ->] H].
      destruct (repeatClass hexClass 64 rest) as [[|? ?]|] eqn:E;
        try discriminate.
      apply repeatClass_exact in E. destruct E as [HL HF].
      exists rest. repeat split; auto.
      rewrite forallb_forall in HF. apply Forall_forall.
      intros c Hc. apply hexClass_spec. auto.
    + intros (b & H & HL & HF). cbn in H. injection H as -> -> ->.
      assert (E : repeatClass hexClass 64 b = Some []).
      { apply repeatClass_exact. split; auto.
        apply forallb_forall. intros c Hc. apply hexClass_spec.
        rewrite Forall_forall in HF. auto. }
      rewrite E. reflexivity.
Qed.

End TransactionInputFacts.

Module JSFacts.

Lemma gt_true_iff a b : gt a b = true <-> b < a.
Proof.
  unfold gt. rewrite (Qgt_alt a b).
  destruct (a ?= b); split; congruence.
Qed.

Lemma gt_false_iff a b : gt a b = false <-> a <= b.
Proof.
  unfold gt. rewrite (Qle_alt a b).
  destruct (a ?= b); split; congruence.
Qed.

Lemma lt_true_iff a b : lt a b = true <-> a < b.
Proof. apply gt_true_iff. Qed.

Lemma lt_false_iff a b : lt a b = false <-> b <= a.
Proof. apply gt_false_iff. Qed.

Lemma Qle_bool_false_iff a b : Qle_bool a b = false <-> b < a.
Proof.
  rewrite <- not_true_iff_false, Qle_bool_iff. split.
  - apply Qnot_le_lt.
  - apply Qlt_not_le.
Qed.

Lemma Math_min_spec a b : Math_min a b == Qmin a b.
Proof.
  unfold Math_min. destruct (Qle_bool a b) eqn:E.
  - apply Qle_bool_iff in E. symmetry. apply Q.min_l. exact E.
  - apply Qle_bool_false_iff in E. symmetry. apply Q.min_r.
    apply Qlt_le_weak. exact E.
Qed.


Lemma str_eqb_eq a b : str_eqb a b = true <-> a = b.
Proof.
  unfold str_eqb. destruct (list_eq_dec N.eq_dec a b); split; congruence.
Qed.

Lemma or_else_truthy a d : truthy d = true -> truthy (or_else a d) = true.
Proof. intros H. unfold or_else. destruct (truthy a) eqn:E; assumption. Qed.

End JSFacts.

Module TransactionInputTheorems.
Import TransactionInput TransactionInputFacts Samples.

Lemma empty_not_tx_hash : ~ is_tx_hash [].
Proof. intros H. apply validateHash_spec in H. discriminate. Qed.

(** C1: the submission handler calls [onSubmit], once and with the trimmed
    input, exactly when the trimmed input is 0x followed by 64 hexadecimal
    characters; every other input makes no call and leaves a validation
    error in the form. *)
Theorem handleSubmit_submits_iff_valid (st : state) :
  let trimmedHash := trim (txHash st) in
  (snd (handleSubmit st) = [trimmedHash] <-> is_tx_hash trimmedHash)
  /\ (~ is_tx_hash trimmedHash ->
      snd (handleSubmit st) = [] /\ error (fst (handleSubmit st)) <> []).
Proof.
  cbv zeta. unfold handleSubmit. cbn [txHash setError].
  destruct (trim (txHash st)) as [|c t] eqn:Et.
  - cbn. split.
    + split; [discriminate|]. intros H. destruct (empty_not_tx_hash H).
    + intros _. split; [reflexivity|discriminate].
  - cbn [truthy negb].
    destruct (validateHash (c :: t)) eqn:Ev; cbn [negb fst snd error].
    + apply validateHash_spec in Ev. split.
      * split; auto.
      * intros H. destruct (H Ev).
    + split.
      * split; [discriminate|].
        intros H. apply validateHash_spec in H. congruence.
      * intros _. split; [reflexivity|discriminate].
Qed.

Example example_hash_is_submitted :
  handleSubmit {| txHash := lit "  " ++ exampleHash ++ [10%N]; error := [] |}
  = ({| txHash := lit "  " ++ exampleHash ++ [10%N]; error := [] |},
     [exampleHash]).
Proof. vm_compute. reflexivity. Qed.

Example uppercase_prefix_is_rejected :
  snd (handleSubmit {| txHash := lit "0X" ++ skipn 2 exampleHash;
                       error := [] |}) = [].
Proof. vm_compute. reflexivity. Qed.

Example short_hash_is_rejected :
  handleSubmit {| txHash := removelast exampleHash; error := [] |}
  = ({| txHash := removelast exampleHash; error := msgInvalid |}, []).
Proof. vm_compute. reflexivity. Qed.


(** *** White space and [trim] *)

Lemma trimStart_app u v :
  trimStart (u ++ v)
  = match trimStart u with [] => trimStart v | t => t ++ v end.
Proof.
  induction u as [|c u IH]; cbn; [reflexivity|].
  destruct (isWhiteSpace c); [exact IH|reflexivity].
Qed.

Lemma trimStart_blank ws : blank ws -> trimStart ws = [].
Proof.
  induction 1 as [|c ws Hc _ IH]; cbn; [reflexivity|].
  rewrite Hc. exact IH.
Qed.

Lemma trimEnd_blank ws : blank ws -> trimEnd ws = [].
Proof.
  intros H. unfold trimEnd. rewrite trimStart_blank; [reflexivity|].
  apply Forall_rev, H.
Qed.

Lemma trimEnd_app a b :
  trimEnd (a ++ b)
  = match trimEnd b with [] => trimEnd a | t => a ++ t end.
Proof.
  unfold trimEnd. rewrite rev_app_distr, trimStart_app.
  destruct (trimStart (rev b)) as [|c t] eqn:E.
  - reflexivity.
  - rewrite rev_app_distr, rev_involutive.
    destruct (rev (c :: t)) as [|c' t'] eqn:E'; [|reflexivity].
    apply (f_equal (@length N)) in E'. rewrite length_rev in E'.
    discriminate.
Qed.

Lemma trimStart_solid s : solid s -> trimStart s = s.
Proof. destruct 1 as [|c s Hc _]; cbn; [reflexivity|]. rewrite Hc. reflexivity. Qed.

Lemma trim_solid s : solid s -> trim s = s.
Proof.
  intros H. unfold trim, trimEnd.
  rewrite (trimStart_solid (rev s)) by apply Forall_rev, H.
  rewrite rev_involutive. apply trimStart_solid, H.
Qed.

Lemma trim_padding ws s ws' :
  blank ws -> blank ws' -> trim (ws ++ s ++ ws') = trim s.
Proof.
  intros H H'. unfold trim.
  rewrite app_assoc, trimEnd_app, (trimEnd_blank ws' H'), trimEnd_app.
  destruct (trimEnd s) as [|c t] eqn:E.
  - rewrite (trimEnd_blank ws H). reflexivity.
  - rewrite trimStart_app, (trimStart_blank ws H). reflexivity.
Qed.

Lemma trimStart_idempotent s : trimStart (trimStart s) = trimStart s.
Proof.
  induction s as [|c s IH]; cbn; [reflexivity|].
  destruct (isWhiteSpace c) eqn:E; [exact IH|]. cbn. rewrite E. reflexivity.
Qed.

Lemma trimStart_split s : exists ws, blank ws /\ s = ws ++ trimStart s.
Proof.
  induction s as [|c s (ws & Hws & IH)]; cbn.
  - exists []. split; [constructor|reflexivity].
  - destruct (isWhiteSpace c) eqn:E.
    + exists (c :: ws). split; [constructor; assumption|].
      cbn. rewrite <- IH. reflexivity.
    + exists []. split; [constructor|reflexivity].
Qed.

Lemma trimEnd_idempotent s : trimEnd (trimEnd s) = trimEnd s.
Proof.
  unfold trimEnd. rewrite rev_involutive, trimStart_idempotent. reflexivity.
Qed.

Lemma trimEnd_suffix ws y :
  blank ws -> trimEnd (ws ++ y) = ws ++ y -> trimEnd y = y.
Proof.
  intros Hws H. rewrite trimEnd_app in H.
  destruct (trimEnd y) as [|c t].
  - rewrite (trimEnd_blank ws Hws) in H. symmetry in H.
    apply app_eq_nil in H. symmetry. apply H.
  - apply app_inv_head in H. exact H.
Qed.

Lemma trimEnd_trimStart x :
  trimEnd x = x -> trimEnd (trimStart x) = trimStart x.
Proof.
  intros Hx. destruct (trimStart_split x) as (ws & Hws & Hsplit).
  apply (trimEnd_suffix ws); [exact Hws|].
  rewrite <- Hsplit. exact Hx.
Qed.

Lemma trim_idempotent s : trim (trim s) = trim s.
Proof.
  unfold trim.
  rewrite (trimEnd_trimStart (trimEnd s) (trimEnd_idempotent s)).
  apply trimStart_idempotent.
Qed.

(** *** The handlers *)

Lemma handleSubmit_calls st :
  snd (handleSubmit st)
  = if validateHash (trim (txHash st)) then [trim (txHash st)] else [].
Proof.
  unfold handleSubmit. cbn [txHash setError].
  destruct (trim (txHash st)) as [|c t]; [reflexivity|].
  cbn [truthy negb]. destruct (validateHash (c :: t)); reflexivity.
Qed.

Lemma hexDigits_solid c : In c hexDigits -> isWhiteSpace c = false.
Proof.
  unfold hexDigits. cbn [lit list_ascii_of_string map In].
  intros H.
  repeat (destruct H as [<-|H]; [vm_compute; reflexivity|]).
  destruct H.
Qed.

Lemma tx_hash_shape h :
  is_tx_hash h -> length h = 66%nat /\ solid h.
Proof.
  intros (body & -> & Hlen & Hhex). split.
  - rewrite length_app, Hlen. reflexivity.
  - apply Forall_app. split.
    + repeat constructor.
    + eapply Forall_impl; [|exact Hhex]. apply hexDigits_solid.
Qed.

(** X1: a submit leaves the typed text alone and replaces whatever error
    was shown: afterwards the error is empty exactly when [onSubmit] was
    called, and set exactly when no call was made. *)
Theorem handleSubmit_error_iff_rejected (st : state) :
  txHash (fst (handleSubmit st)) = txHash st
  /\ (error (fst (handleSubmit st)) = []
      <-> snd (handleSubmit st) = [trim (txHash st)])
  /\ (error (fst (handleSubmit st)) <> [] <-> snd (handleSubmit st) = []).
Proof.
  unfold handleSubmit. cbn [txHash setError].
  destruct (trim (txHash st)) as [|c t].
  - cbn. repeat split; try discriminate; auto.
  - cbn [truthy negb]. destruct (validateHash (c :: t)); cbn.
    + repeat split; try discriminate; auto. intros H. destruct H. reflexivity.
    + repeat split; try discriminate; auto.
Qed.

(** X2: whatever is handed to [onSubmit] has exactly 66 characters, none
    of them white space, and is its own trim. *)
Theorem submitted_hash_shape (st : state) (h : jsstring)
    (Hcall : In h (snd (handleSubmit st))) :
  length h = 66%nat /\ solid h /\ trim h = h.
Proof.
  rewrite handleSubmit_calls in Hcall.
  destruct (validateHash (trim (txHash st))) eqn:E; [|destruct Hcall].
  destruct Hcall as [<-|[]].
  apply validateHash_spec, tx_hash_shape in E. destruct E as [Hlen Hsolid].
  repeat split; auto. apply trim_solid, Hsolid.
Qed.

Lemma submitted_hash_shape_witness :
  length exampleHash = 66%nat /\ solid exampleHash
  /\ trim exampleHash = exampleHash.
Proof.
  apply (submitted_hash_shape
           {| txHash := lit " " ++ exampleHash; error := [] |}).
  vm_compute. left. reflexivity.
Defined.

(** X3: white space typed around the text does not change what a submit
    hands to [onSubmit]. *)
Theorem handleSubmit_ignores_padding (ws s ws' e e' : jsstring)
    (Hws : blank ws) (Hws' : blank ws') :
  snd (handleSubmit {| txHash := ws ++ s ++ ws'; error := e |})
  = snd (handleSubmit {| txHash := s; error := e' |}).
Proof.
  rewrite !handleSubmit_calls. cbn [txHash].
  rewrite (trim_padding ws s ws' Hws Hws'). reflexivity.
Qed.

Lemma handleSubmit_ignores_padding_witness :
  snd (handleSubmit {| txHash := lit "  " ++ exampleHash ++ [9%N; 10%N];
                       error := [] |})
  = snd (handleSubmit {| txHash := exampleHash; error := msgInvalid |}).
Proof.
  apply (handleSubmit_ignores_padding (lit "  ") exampleHash [9%N; 10%N]).
  - repeat constructor.
  - repeat constructor.
Defined.

(** X4: a clipboard read that fails or yields the empty text leaves the
    form as it was; after any other paste, a submit calls [onSubmit] with
    the trimmed clipboard text exactly when that text is a well-formed
    hash. *)
Theorem paste_then_submit (clipboard : result jsstring) (st : state) :
  match clipboard with
  | Ok (c :: t) =>
      snd (handleSubmit (handlePaste clipboard st)) = [trim (c :: t)]
      <-> is_tx_hash (trim (c :: t))
  | _ => handlePaste clipboard st = st
  end.
Proof.
  destruct clipboard as [[|c t]|e]; try reflexivity.
  rewrite handleSubmit_calls. cbn [handlePaste truthy setError setTxHash txHash].
  rewrite trim_idempotent.
  destruct (validateHash (trim (c :: t))) eqn:E.
  - split; [intros _; apply validateHash_spec, E|reflexivity].
  - split; [discriminate|].
    intros H. apply validateHash_spec in H. congruence.
Qed.

(** X5: whatever the form held, Use Example followed by a submit calls
    [onSubmit] with the example hash and leaves no error. *)
Theorem setExample_then_submit (st : state) :
  handleSubmit (setExample st)
  = ({| txHash := exampleHash; error := [] |}, [exampleHash]).
Proof. destruct st. vm_compute. reflexivity. Qed.

End TransactionInputTheorems.

Module AppTheorems.
Import App GasComparisonChart Samples.

Lemma or_else_undefined d : or_else VUndefined d = d.
Proof. reflexivity. Qed.

(** With no fraud_analysis object, the fraud meter gets score 0, level
    UNKNOWN and no factors. *)
Lemma fraud_absent_is_UNKNOWN result :
  opt_get result "fraud_analysis" = VUndefined ->
  fraudRiskMeterProps result
  = {| riskScore := VNum 0; riskLevel := VStr (lit "UNKNOWN");
       riskFactors := VArr [] |}.
Proof. unfold fraudRiskMeterProps. intros ->. reflexivity. Qed.

(** With no gas_analysis object, the gas chart gets zeros and the
    efficiency NORMAL. *)
Lemma gas_absent_is_NORMAL result :
  opt_get result "gas_analysis" = VUndefined ->
  gasComparisonChartProps result
  = {| predicted := VNum 0; actual := VNum 0;
       efficiency := VStr (lit "NORMAL"); feeUsd := VNum 0;
       explanation := VUndefined |}.
Proof. unfold gasComparisonChartProps. intros ->. reflexivity. Qed.

Example fraud_absent_gas_kept :
  fraudRiskMeterProps withoutFraud
  = {| riskScore := VNum 0; riskLevel := VStr (lit "UNKNOWN");
       riskFactors := VArr [] |}
  /\ gasComparisonChartProps withoutFraud
     = {| predicted := VNum (235 # 10); actual := VNum (255 # 10);
          efficiency := VStr (lit "NORMAL"); feeUsd := VNum (5 # 2);
          explanation := VUndefined |}.
Proof. split; vm_compute; reflexivity. Qed.

(** C2: on a response without gas_analysis the gas chart is given the
    efficiency NORMAL, captioned as within the expected range, and not
    UNKNOWN; the fraud meter of the same response keeps its values. *)
Theorem missing_gas_analysis_shown_as_NORMAL :
  opt_get withoutGas "gas_analysis" = VUndefined
  /\ efficiency (gasComparisonChartProps withoutGas) = VStr (lit "NORMAL")
  /\ efficiency (gasComparisonChartProps withoutGas) <> VStr (lit "UNKNOWN")
  /\ gasExplanation (efficiency (gasComparisonChartProps withoutGas))
                    (explanation (gasComparisonChartProps withoutGas))
     = VStr (lit "Within expected range")
  /\ riskLevel (fraudRiskMeterProps withoutGas) = VStr (lit "LOW").
Proof.
  repeat split; try (vm_compute; reflexivity).
  vm_compute. discriminate.
Qed.


Lemma truthy_not_nullish v : truthy v = true -> ~ AppState.nullish v.
Proof. intros H [-> | ->]; discriminate. Qed.

(** X9: every prop that App hands on with a default is neither
    [undefined] nor [null], whatever the response holds. *)
Theorem defaulted_props_never_nullish (result : value) :
  let fraud := fraudRiskMeterProps result in
  let gas := gasComparisonChartProps result in
  let cls := transactionClassificationProps result in
  Forall (fun v => ~ AppState.nullish v)
    [riskScore fraud; riskLevel fraud; riskFactors fraud;
     predicted gas; actual gas; efficiency gas; feeUsd gas;
     category cls; confidence cls; allCategories cls].
Proof.
  cbv zeta.
  unfold fraudRiskMeterProps, gasComparisonChartProps,
    transactionClassificationProps.
  cbn [riskScore riskLevel riskFactors predicted actual efficiency feeUsd
       category confidence allCategories].
  repeat constructor;
    match goal with
    | |- ~ AppState.nullish (or_else ?a ?d) =>
        unfold or_else; destruct (truthy a) eqn:E;
        [apply truthy_not_nullish, E | intros [H|H]; discriminate H]
    end.
Qed.

End AppTheorems.

Module TokenFlowDiagramTheorems.
Import TokenFlowDiagram JSFacts.

(** Away from the amount 1 the Transfer Size card of a native transfer is
    the specification's tier. *)
Lemma transferSize_agrees_off_one tokenAmount v :
  ~ v == 1 -> transferSize false tokenAmount v = value_tier_spec v.
Proof.
  intros Hv. unfold transferSize, value_tier_spec.
  destruct (gt v 10) eqn:E10.
  - apply gt_true_iff in E10.
    assert (H1 : lt v 1 = false) by (apply lt_false_iff; lra).
    assert (H2 : Qle_bool v 10 = false) by (apply Qle_bool_false_iff; lra).
    rewrite H1, H2. reflexivity.
  - apply gt_false_iff in E10.
    assert (H2 : Qle_bool v 10 = true) by (apply Qle_bool_iff; lra).
    rewrite H2.
    destruct (gt v 1) eqn:E1.
    + apply gt_true_iff in E1.
      assert (H1 : lt v 1 = false) by (apply lt_false_iff; lra).
      rewrite H1. reflexivity.
    + apply gt_false_iff in E1.
      assert (H1 : lt v 1 = true).
      { apply lt_true_iff. apply Qle_lteq in E1. tauto. }
      rewrite H1. reflexivity.
Qed.

Example one_and_a_half_is_Medium :
  transferSize false None (15 # 10) = lit "Medium".
Proof. reflexivity. Qed.

(** C3: a native transfer of exactly 1 unit is shown as Small, where the
    specification's tiers make it Medium. *)
Theorem transferSize_at_one_is_Small (tokenAmount : option Q) :
  transferSize false tokenAmount 1 = lit "Small"
  /\ value_tier_spec 1 = lit "Medium".
Proof. split; reflexivity. Qed.

(** C10: a transfer that is not a token transfer has the USD value
    [value * 2500] and its card shows it under the label USD Value
    (approx); a token transfer has no USD value (null) and its card shows
    the token symbol under the label Token. *)
Theorem usdValue_only_for_native (tokenSymbol : value) (v : Q) :
  usdValue false v = Some (v * 2500)
  /\ valueCard false tokenSymbol v
     = (lit "USD Value (approx)", Dollars (Some (v * 2500)))
  /\ usdValue true v = None
  /\ valueCard true tokenSymbol v = (lit "Token", Symbol tokenSymbol).
Proof. repeat split. Qed.

Example usd_of_one_and_a_half :
  usdValue false (15 # 10) = Some ((15 # 10) * 2500)
  /\ (15 # 10) * 2500 == 3750.
Proof. split; reflexivity. Qed.


(** X14: a larger amount is never shown as a smaller transfer size, for
    native transfers (by value) and for token transfers (by token
    amount). *)
Theorem transferSize_monotone (v1 v2 a1 a2 : Q) (t1 t2 : option Q)
    (Hv : v1 <= v2) (Ha : a1 <= a2) :
  (sizeRank (transferSize false t1 v1)
   <= sizeRank (transferSize false t2 v2))%nat
  /\ (sizeRank (transferSize true (Some a1) v1)
      <= sizeRank (transferSize true (Some a2) v2))%nat.
Proof.
  unfold transferSize. cbn [amount_gt]. split.
  - destruct (gt v1 10) eqn:A1; destruct (gt v1 1) eqn:B1;
      destruct (gt v2 10) eqn:A2; destruct (gt v2 1) eqn:B2;
      repeat match goal with
      | H : gt _ _ = true |- _ => apply gt_true_iff in H
      | H : gt _ _ = false |- _ => apply gt_false_iff in H
      end;
      try (exfalso; lra); vm_compute; lia.
  - destruct (gt a1 10000) eqn:A1; destruct (gt a1 100) eqn:B1;
      destruct (gt a2 10000) eqn:A2; destruct (gt a2 100) eqn:B2;
      repeat match goal with
      | H : gt _ _ = true |- _ => apply gt_true_iff in H
      | H : gt _ _ = false |- _ => apply gt_false_iff in H
      end;
      try (exfalso; lra); vm_compute; lia.
Qed.

Lemma transferSize_monotone_witness :
  Nat.le (sizeRank (transferSize false None 1))
         (sizeRank (transferSize false None (15 # 10)))
  /\ Nat.le (sizeRank (transferSize true (Some 100) 1))
            (sizeRank (transferSize true (Some 20000) (15 # 10))).
Proof.
  apply (transferSize_monotone 1 (15 # 10) 100 20000 None None).
  - unfold Qle. simpl. lia.
  - unfold Qle. simpl. lia.
Defined.

End TokenFlowDiagramTheorems.

Module FraudRiskMeterTheorems.
Import FraudRiskMeter JSFacts.

(** C9: the gauge percentage is the smaller of [riskScore * 100] and 100;
    hence the percentage, the end of the coloured arc and the needle never
    pass 100 percent, 180 degrees and 90 degrees, whatever the score; and
    for a score between 0 and 1 the percentage is [riskScore * 100]. *)
Theorem percentage_is_capped (riskScore : Q) :
  percentage riskScore == Qmin (riskScore * 100) 100
  /\ percentage riskScore <= 100
  /\ arcEnd riskScore <= 180
  /\ rotation riskScore <= 90
  /\ (0 <= riskScore <= 1 -> percentage riskScore == riskScore * 100).
Proof.
  assert (Hmin : percentage riskScore == Qmin (riskScore * 100) 100)
    by apply Math_min_spec.
  assert (Hle : percentage riskScore <= 100).
  { rewrite Hmin. apply Q.le_min_r. }
  repeat split.
  - exact Hmin.
  - exact Hle.
  - unfold arcEnd. lra.
  - unfold rotation, Qdiv. change (/ 100) with (1 # 100). lra.
  - intros [_ H1]. rewrite Hmin. apply Q.min_l. lra.
Qed.

Example percentage_above_scale : percentage (3 # 2) = 100.
Proof. reflexivity. Qed.

Example percentage_in_scale : percentage (12 # 100) == 12.
Proof. reflexivity. Qed.


Lemma percentage_monotone r1 r2 :
  r1 <= r2 -> percentage r1 <= percentage r2.
Proof.
  intros H. unfold percentage. rewrite !Math_min_spec.
  apply Q.min_le_compat_r. lra.
Qed.

Lemma rotation_eq r : rotation r == percentage r * (18 # 10) - 90.
Proof. unfold rotation. field. Qed.

(** X16: a higher score never moves the gauge back: percentage, needle
    and arc are monotone in the score. *)
Theorem gauge_monotone (r1 r2 : Q) (Hle : r1 <= r2) :
  percentage r1 <= percentage r2
  /\ rotation r1 <= rotation r2
  /\ arcEnd r1 <= arcEnd r2.
Proof.
  pose proof (percentage_monotone r1 r2 Hle) as H.
  rewrite !rotation_eq. unfold arcEnd. repeat split; lra.
Qed.

Lemma gauge_monotone_witness :
  percentage (12 # 100) <= percentage (3 # 2)
  /\ rotation (12 # 100) <= rotation (3 # 2)
  /\ arcEnd (12 # 100) <= arcEnd (3 # 2).
Proof.
  apply (gauge_monotone (12 # 100) (3 # 2)).
  unfold Qle. simpl. lia.
Defined.


(** X18: the four risk levels have four different colours, and the gray
    of the fallback is given to exactly the levels that are none of them
    (UNKNOWN, another casing, a value that is no string). *)
Theorem getColor_gray_iff_unknown (riskLevel : value) :
  (getColor riskLevel = gray <-> ~ In riskLevel riskLevels)
  /\ NoDup (map getColor riskLevels).
Proof.
  split; [split|].
  - intros Hg Hin. unfold riskLevels in Hin. cbn [In] in Hin.
    destruct Hin as [<-|[<-|[<-|[<-|[]]]]]; vm_compute in Hg; discriminate.
  - intros Hn. destruct riskLevel as [| | | |l| |]; try reflexivity.
    unfold getColor.
    repeat match goal with
    | |- context [str_eqb l ?x] =>
        let E := fresh "E" in
        destruct (str_eqb l x) eqn:E;
        [apply str_eqb_eq in E; subst l; exfalso; apply Hn;
         unfold riskLevels; cbn [In]; tauto|]
    end.
    reflexivity.
  - vm_compute. repeat constructor; cbn [In]; intuition discriminate.
Qed.

End FraudRiskMeterTheorems.

Module ExplanationPanelTheorems.
Import ExplanationPanel.

Lemma slice_prefix {A : Type} (s : list A) (n : nat) :
  (n <= length s)%nat -> slice s 0 (Some (Z.of_nat n)) = firstn n s.
Proof.
  intros H. unfold slice, relIndex.
  change (0 <? 0)%Z with false. cbv iota.
  destruct (Z.of_nat n <? 0)%Z eqn:E; [lia|].
  replace (Z.min 0 (Z.of_nat (length s))) with 0%Z by lia.
  replace (Z.max (Z.min (Z.of_nat n) (Z.of_nat (length s)) - 0) 0)
    with (Z.of_nat n) by lia.
  rewrite Nat2Z.id. reflexivity.
Qed.

Lemma slice_suffix (s : jsstring) (n : nat) :
  (0 < n <= length s)%nat ->
  slice s (- Z.of_nat n) None = lastChars n s.
Proof.
  intros H. unfold slice, relIndex, lastChars.
  destruct (- Z.of_nat n <? 0)%Z eqn:E; [|lia].
  rewrite firstn_rev, rev_involutive.
  replace (Z.to_nat (Z.max (Z.of_nat (length s) + - Z.of_nat n) 0))
    with (length s - n)%nat by lia.
  apply firstn_all2. rewrite length_skipn. lia.
Qed.

(** C8: [formatAddress] never throws; an absent or empty address and one
    of fewer than 15 characters come back unchanged, any longer one as its
    first 8 characters, three dots and its last 6 characters. *)
Theorem formatAddress_abbreviates (addr : option jsstring) :
  exists out, formatAddress addr = Ok out
    /\ match addr with
       | None => out = None
       | Some a =>
           if (length a <? 15)%nat then out = Some a
           else out = Some (firstn 8 a ++ lit "..." ++ lastChars 6 a)
       end.
Proof.
  destruct addr as [a|]; [|exists None; split; reflexivity].
  unfold formatAddress.
  destruct (falsy (Some a)) eqn:Ef.
  - exists (Some a). split; [reflexivity|].
    destruct a; [reflexivity|discriminate].
  - cbn [get_length bind call_slice].
    destruct (length a <? 15)%nat eqn:El.
    + apply Nat.ltb_lt in El.
      exists (Some a). split; [|reflexivity].
      destruct (Z.of_nat (length a) <? 15)%Z eqn:E; [reflexivity|lia].
    + apply Nat.ltb_ge in El.
      exists (Some (firstn 8 a ++ lit "..." ++ lastChars 6 a)).
      split; [|reflexivity].
      destruct (Z.of_nat (length a) <? 15)%Z eqn:E; [lia|].
      change 8%Z with (Z.of_nat 8). change (-6)%Z with (- Z.of_nat 6)%Z.
      rewrite slice_prefix by lia. rewrite slice_suffix by lia.
      reflexivity.
Qed.

Example formatAddress_example :
  formatAddress (Some (lit "0x742d35Cc6634C0532925a3b844Bc454e4438f44e"))
  = Ok (Some (lit "0x742d35...38f44e")).
Proof. vm_compute. reflexivity. Qed.

Example formatAddress_short :
  formatAddress (Some (lit "0x742d35Cc6634")) = Ok (Some (lit "0x742d35Cc6634")).
Proof. vm_compute. reflexivity. Qed.


Lemma formatAddress_below_15 a :
  (length a < 15)%nat -> formatAddress (Some a) = Ok (Some a).
Proof.
  intros H. unfold formatAddress.
  destruct (falsy (Some a)); [reflexivity|].
  cbn [get_length bind].
  destruct (Z.of_nat (length a) <? 15)%Z eqn:E; [reflexivity|lia].
Qed.

Lemma formatAddress_from_15 a :
  (15 <= length a)%nat ->
  formatAddress (Some a)
  = Ok (Some (firstn 8 a ++ lit "..." ++ lastChars 6 a)).
Proof.
  intros H. unfold formatAddress.
  destruct a as [|c a]; [cbn in H; lia|].
  cbn [falsy truthy negb get_length bind call_slice].
  destruct (Z.of_nat (length (c :: a)) <? 15)%Z eqn:E; [lia|].
  change 8%Z with (Z.of_nat 8). change (-6)%Z with (- Z.of_nat 6)%Z.
  rewrite slice_prefix by lia. rewrite slice_suffix by lia.
  reflexivity.
Qed.

Lemma length_lastChars n s :
  (n <= length s)%nat -> length (lastChars n s) = n.
Proof.
  intros H. unfold lastChars.
  rewrite length_rev, length_firstn, length_rev. lia.
Qed.

Lemma lastChars_app n x t : length t = n -> lastChars n (x ++ t) = t.
Proof.
  intros H. unfold lastChars.
  rewrite rev_app_distr, firstn_app, length_rev, H, Nat.sub_diag.
  cbn [firstn]. rewrite app_nil_r.
  rewrite firstn_all2 by (rewrite length_rev; lia).
  apply rev_involutive.
Qed.

Lemma firstn_app_exact {A : Type} n (h x : list A) :
  length h = n -> firstn n (h ++ x) = h.
Proof.
  intros H. rewrite firstn_app, H, Nat.sub_diag. cbn [firstn].
  rewrite app_nil_r. apply firstn_all2. lia.
Qed.

Lemma abbreviated_shape a :
  (15 <= length a)%nat ->
  length (abbreviated a) = 17%nat
  /\ firstn 8 (abbreviated a) = firstn 8 a
  /\ lastChars 6 (abbreviated a) = lastChars 6 a.
Proof.
  intros H. unfold abbreviated.
  assert (H8 : length (firstn 8 a) = 8%nat) by (rewrite length_firstn; lia).
  assert (H6 : length (lastChars 6 a) = 6%nat)
    by (apply length_lastChars; lia).
  repeat split.
  - rewrite !length_app, H8, H6. reflexivity.
  - apply firstn_app_exact, H8.
  - rewrite app_assoc. apply lastChars_app, H6.
Qed.

(** X10: abbreviating an address twice gives what abbreviating it once
    gives. *)
Theorem formatAddress_idempotent (addr : option jsstring) :
  exists out, formatAddress addr = Ok out /\ formatAddress out = Ok out.
Proof.
  destruct addr as [a|]; [|exists None; split; reflexivity].
  destruct (Nat.lt_ge_cases (length a) 15) as [H|H].
  - exists (Some a). split; apply formatAddress_below_15, H.
  - exists (Some (abbreviated a)).
    split; [apply formatAddress_from_15, H|].
    destruct (abbreviated_shape a H) as (Hlen & Hhead & Htail).
    rewrite formatAddress_from_15 by lia.
    fold (abbreviated (abbreviated a)). unfold abbreviated at 1.
    rewrite Hhead, Htail. reflexivity.
Qed.

(** X11: the text shown for an address has the address's own length
    below 15 characters and exactly 17 from there on (so an address of
    15 or 16 characters is shown longer than it is), and it always
    begins with the same 8 and ends with the same 6 characters as the
    address. *)
Theorem formatAddress_length (a : jsstring) :
  exists out,
    formatAddress (Some a) = Ok (Some out)
    /\ length out = (if (length a <? 15)%nat then length a else 17%nat)
    /\ firstn 8 out = firstn 8 a
    /\ lastChars 6 out = lastChars 6 a.
Proof.
  destruct (length a <? 15)%nat eqn:E.
  - apply Nat.ltb_lt in E. exists a.
    split; [apply formatAddress_below_15, E|]. repeat split.
  - apply Nat.ltb_ge in E. exists (abbreviated a).
    split; [apply formatAddress_from_15, E|]. apply abbreviated_shape, E.
Qed.

End ExplanationPanelTheorems.

Module RuleEngineTheorems.
Import RuleEngine JSFacts.

Lemma in_tier_unique t t' score :
  in_tier t score -> in_tier t' score -> t' = t.
Proof.
  destruct t, t'; cbn; intros H H'; try reflexivity; try contradiction;
    exfalso; lra.
Qed.

Lemma risk_level_in_tier score t :
  risk_level score = Ok t -> in_tier t score.
Proof.
  unfold risk_level.
  destruct (lt score 0) eqn:E0; [discriminate|].
  destruct (gt score 1) eqn:E1; [discriminate|]. cbn [orb].
  apply lt_false_iff in E0. apply gt_false_iff in E1.
  destruct (lt score (30 # 100)) eqn:E30.
  { intros [= <-]. apply lt_true_iff in E30. cbn. lra. }
  apply lt_false_iff in E30.
  destruct (lt score (60 # 100)) eqn:E60.
  { intros [= <-]. apply lt_true_iff in E60. cbn. lra. }
  apply lt_false_iff in E60.
  destruct (lt score (80 # 100)) eqn:E80.
  { intros [= <-]. apply lt_true_iff in E80. cbn. lra. }
  apply lt_false_iff in E80.
  intros [= <-]. cbn. lra.
Qed.

Lemma risk_level_defined score :
  0 <= score -> score <= 1 -> exists t, risk_level score = Ok t.
Proof.
  intros H0 H1. unfold risk_level.
  assert (E0 : lt score 0 = false) by (apply lt_false_iff; lra).
  assert (E1 : gt score 1 = false) by (apply gt_false_iff; lra).
  rewrite E0, E1. cbn [orb].
  destruct (lt score (30 # 100)); [eauto|].
  destruct (lt score (60 # 100)); [eauto|].
  destruct (lt score (80 # 100)); eauto.
Qed.

(** C5: for a score in [0,1], risk_level returns one of LOW, MEDIUM, HIGH
    and CRITICAL, the one whose interval holds the score, and no other
    interval holds it: the four intervals partition [0,1]. The score 0.30
    is MEDIUM. *)
Theorem risk_level_partitions (score : Q)
    (Hlo : 0 <= score) (Hhi : score <= 1) :
  (exists t, risk_level score = Ok t
             /\ t <> UNKNOWN
             /\ in_tier t score
             /\ forall t', in_tier t' score -> t' = t)
  /\ risk_level (30 # 100) = Ok MEDIUM.
Proof.
  split; [|reflexivity].
  destruct (risk_level_defined score Hlo Hhi) as [t Ht].
  pose proof (risk_level_in_tier score t Ht) as Hin.
  exists t. split; [exact Ht|]. split; [|split].
  - intros ->. exact Hin.
  - exact Hin.
  - intros t' H'. exact (in_tier_unique t t' score Hin H').
Qed.

Lemma risk_level_partitions_witness :
  (exists t, risk_level (12 # 100) = Ok t
             /\ t <> UNKNOWN
             /\ in_tier t (12 # 100)
             /\ forall t', in_tier t' (12 # 100) -> t' = t)
  /\ risk_level (30 # 100) = Ok MEDIUM.
Proof.
  apply (risk_level_partitions (12 # 100)).
  - unfold Qle. simpl. lia.
  - unfold Qle. simpl. lia.
Defined.

Example risk_level_bounds :
  risk_level 0 = Ok LOW /\ risk_level (299 # 1000) = Ok LOW
  /\ risk_level (599 # 1000) = Ok MEDIUM /\ risk_level (60 # 100) = Ok HIGH
  /\ risk_level (80 # 100) = Ok CRITICAL /\ risk_level 1 = Ok CRITICAL
  /\ risk_level (101 # 100) = Throw InvariantViolation
  /\ risk_level (-1 # 100) = Throw InvariantViolation.
Proof. repeat split. Qed.

End RuleEngineTheorems.

Module GasComparisonChartTheorems.
Import GasComparisonChart JSFacts.

(** The integer toFixed(1) writes is a nearest tenth of the magnitude. *)
Lemma toFixedInt_nearest_tenth x :
  Qabs (inject_Z (toFixedInt 1 x) / 10 - Qabs x) <= 1 # 20.
Proof.
  unfold toFixedInt.
  change (inject_Z (10 ^ Z.of_nat 1)) with 10.
  pose proof (Qfloor_le (Qabs x * 10 + (1 # 2))) as Hlo.
  pose proof (Qlt_floor (Qabs x * 10 + (1 # 2))) as Hhi.
  rewrite inject_Z_plus in Hhi. change (inject_Z 1) with 1 in Hhi.
  revert Hlo Hhi.
  generalize (inject_Z (Qfloor (Qabs x * 10 + (1 # 2)))) as n.
  generalize (Qabs x) as a.
  intros a n Hlo Hhi.
  apply Qabs_Qle_condition.
  unfold Qdiv. change (/ 10) with (1 # 10).
  split; lra.
Qed.

Lemma exactValue_nonneg m e : 0 <= exactValue m e.
Proof.
  unfold exactValue. apply Qmult_le_0_compat.
  - unfold Qle. simpl. lia.
  - apply Qpower_0_le. unfold Qle. simpl. lia.
Qed.

(** What toFixed(1) writes for a finite double below [10^21]: its sign
    and a nearest tenth of its value. *)
Lemma toFixed_below_1e21 x s m e :
  Prim2SF x = S754_finite s m e ->
  exactValue m e < inject_Z (10 ^ 21) ->
  toFixed 1 x = formatFixed 1 s (toFixedInt 1 (exactValue m e))
  /\ Qabs (inject_Z (toFixedInt 1 (exactValue m e)) / 10 - exactValue m e)
     <= 1 # 20.
Proof.
  intros Hx Hsmall. split.
  - unfold toFixed. rewrite Hx.
    apply Qle_bool_false_iff in Hsmall. rewrite Hsmall. reflexivity.
  - pose proof (toFixedInt_nearest_tenth (exactValue m e)) as H.
    rewrite (Qabs_pos _ (exactValue_nonneg m e)) in H. exact H.
Qed.

(** C6, as the code has it: with [predicted > 0] the deviation is
    [(actual - predicted) / predicted] and the percentage on display is
    what toFixed(1) writes for 100 times it, all in double arithmetic: for
    a finite product below [10^21] its sign and a nearest tenth of its
    magnitude, within 0.05 of it; [0.0] for a zero; for a larger product
    the exponent notation of Number::toString, and Infinity or NaN when
    the product is not finite. Otherwise the deviation is taken as 0 and
    the number 0 is displayed. *)
Theorem diffPercent_rounds_deviation (predicted actual : float) :
  let pct := (gas_deviation_spec predicted actual * 100)%float in
  ((0 <? predicted)%float = false ->
     gas_deviation_spec predicted actual = 0%float
     /\ diffPercent predicted actual = VNum 0)
  /\ ((0 <? predicted)%float = true ->
     gas_deviation_spec predicted actual
     = ((actual - predicted) / predicted)%float
     /\ diffPercent predicted actual = VStr (toFixed 1 pct)
     /\ (forall s m e,
           Prim2SF pct = S754_finite s m e ->
           exactValue m e < inject_Z (10 ^ 21) ->
           toFixed 1 pct = formatFixed 1 s (toFixedInt 1 (exactValue m e))
           /\ Qabs (inject_Z (toFixedInt 1 (exactValue m e)) / 10
                    - exactValue m e) <= 1 # 20)
     /\ (forall s, Prim2SF pct = S754_zero s -> toFixed 1 pct = lit "0.0")
     /\ (forall s m e,
           Prim2SF pct = S754_finite s m e ->
           inject_Z (10 ^ 21) <= exactValue m e ->
           toFixed 1 pct = signed s (toStringLarge m e))
     /\ (forall s, Prim2SF pct = S754_infinity s ->
           toFixed 1 pct = signed s (lit "Infinity"))
     /\ (Prim2SF pct = S754_nan -> toFixed 1 pct = lit "NaN")).
Proof.
  cbv zeta. unfold gas_deviation_spec, diffPercent, difference. split.
  - intros Hp. rewrite Hp. split; reflexivity.
  - intros Hp. rewrite Hp. split; [reflexivity|]. split; [reflexivity|].
    split; [|split; [|split; [|split]]].
    + intros s m e Hx Hsmall. exact (toFixed_below_1e21 _ s m e Hx Hsmall).
    + intros s Hx. unfold toFixed. rewrite Hx. reflexivity.
    + intros s m e Hx Hbig. unfold toFixed. rewrite Hx.
      apply Qle_bool_iff in Hbig. rewrite Hbig. reflexivity.
    + intros s Hx. unfold toFixed. rewrite Hx. reflexivity.
    + intros Hx. unfold toFixed. rewrite Hx. reflexivity.
Qed.

(** C6, counterexample: predicted 23.5 and actual 25.5 gwei display 8.5,
    while 100 times the deviation 2 / 23.5 is a double above 8.5
    (8.51063829787234). *)
Lemma displayed_percentage_is_not_exact :
  diffPercent 23.5 25.5 = VStr (lit "8.5")
  /\ ((gas_deviation_spec 23.5 25.5 * 100) =? 8.5)%float = false
  /\ (8.5 <? gas_deviation_spec 23.5 25.5 * 100)%float = true.
Proof. repeat split; vm_compute; reflexivity. Qed.

Example diffPercent_congested : diffPercent 10 19 = VStr (lit "90.0").
Proof. vm_compute. reflexivity. Qed.

Example diffPercent_below : diffPercent 10 5 = VStr (lit "-50.0").
Proof. vm_compute. reflexivity. Qed.

Example diffPercent_no_prediction : diffPercent 0 25.5 = VNum 0.
Proof. vm_compute. reflexivity. Qed.

(** The product is rounded as a double before toFixed sees it: 0.15 and
    28.75 are not reached. *)
Example diffPercent_rounds_the_double :
  diffPercent 2000 2003 = VStr (lit "0.1")
  /\ diffPercent 80 103 = VStr (lit "28.7").
Proof. split; vm_compute; reflexivity. Qed.

Example percentage_is_finite :
  Prim2SF (gas_deviation_spec 23.5 25.5 * 100)
  = S754_finite false 4791063433372868 (-49)
  /\ exactValue 4791063433372868 (-49) < inject_Z (10 ^ 21).
Proof. split; vm_compute; reflexivity. Qed.

Example diffPercent_exponent_notation :
  diffPercent 1 1e22 = VStr (lit "1e+24")
  /\ diffPercent 1e22 0.5 = VStr (lit "-100.0")
  /\ diffPercent 0.5 1e22 = VStr (lit "2e+24").
Proof. repeat split; vm_compute; reflexivity. Qed.

Lemma getEfficiencyText_nonempty e : truthy (VStr (getEfficiencyText e)) = true.
Proof.
  destruct e as [| | | |s| |]; try reflexivity.
  unfold getEfficiencyText.
  repeat match goal with
  | |- context [str_eqb s ?x] => destruct (str_eqb s x)
  end; reflexivity.
Qed.

(** X19: colour and caption recognise the same efficiencies: the badge
    is gray exactly when the built-in caption reads Unknown. *)
Theorem gray_iff_caption_Unknown (efficiency : value) :
  getEfficiencyColor efficiency = gray
  <-> getEfficiencyText efficiency = lit "Unknown".
Proof.
  destruct efficiency as [| | | |s| |]; try (split; reflexivity).
  unfold getEfficiencyColor, getEfficiencyText.
  repeat match goal with
  | |- context [str_eqb s ?x] =>
      destruct (str_eqb s x);
      cbn [orb];
      [split; intros H; vm_compute in H; discriminate H|]
  end.
  split; reflexivity.
Qed.

(** X20: the caption under the badge is never empty: a non-empty
    explanation of the response is shown as it is, and in every other
    case one of the built-in captions. *)
Theorem gasExplanation_never_empty (efficiency explanation : value) :
  truthy (gasExplanation efficiency explanation) = true
  /\ (truthy explanation = true ->
      gasExplanation efficiency explanation = explanation)
  /\ (truthy explanation = false ->
      gasExplanation efficiency explanation
      = VStr (getEfficiencyText efficiency)).
Proof.
  unfold gasExplanation, or_else.
  destruct (truthy explanation) eqn:E.
  - repeat split; auto. discriminate.
  - repeat split; auto; try discriminate. apply getEfficiencyText_nonempty.
Qed.


End GasComparisonChartTheorems.

Module TransactionClassificationTheorems.
Import TransactionClassification JSFacts Samples.

Lemma moves_behind_iff x y :
  gt (byProbabilityDesc x y) 0 = true <-> snd x < snd y.
Proof. unfold byProbabilityDesc. rewrite gt_true_iff. split; intros; lra. Qed.

Lemma stays_before_iff x y :
  gt (byProbabilityDesc x y) 0 = false <-> descending x y.
Proof.
  unfold byProbabilityDesc, descending. rewrite gt_false_iff.
  split; intros; lra.
Qed.

Section SortFacts.
Context {A : Type} (cmp : A -> A -> Q).

Lemma insert_perm x l : Permutation (insert cmp x l) (x :: l).
Proof.
  induction l as [|y l IH]; cbn.
  - reflexivity.
  - destruct (gt (cmp x y) 0).
    + rewrite IH. apply perm_swap.
    + reflexivity.
Qed.

Lemma sort_perm l : Permutation (sort cmp l) l.
Proof.
  induction l as [|x l IH]; cbn.
  - reflexivity.
  - rewrite insert_perm. apply perm_skip. exact IH.
Qed.

Lemma length_sort l : length (sort cmp l) = length l.
Proof. apply Permutation_length, sort_perm. Qed.

End SortFacts.

Lemma insert_sorted x l :
  StronglySorted descending l ->
  StronglySorted descending (insert byProbabilityDesc x l).
Proof.
  induction 1 as [|y l Hs IH Hy]; cbn.
  - constructor; constructor.
  - destruct (gt (byProbabilityDesc x y) 0) eqn:E.
    + apply moves_behind_iff in E. constructor; [exact IH|].
      apply (Permutation_Forall (Permutation_sym (insert_perm _ x l))).
      constructor; [|exact Hy]. unfold descending. lra.
    + apply stays_before_iff in E. constructor.
      * constructor; assumption.
      * constructor; [exact E|].
        eapply Forall_impl; [|exact Hy].
        unfold descending in *. intros z Hz. lra.
Qed.

Lemma sort_sorted l : StronglySorted descending (sort byProbabilityDesc l).
Proof.
  induction l as [|x l IH]; cbn.
  - constructor.
  - apply insert_sorted, IH.
Qed.

Lemma sort_of_sorted l :
  StronglySorted descending l -> sort byProbabilityDesc l = l.
Proof.
  induction 1 as [|x l Hs IH Hx]; cbn.
  - reflexivity.
  - rewrite IH. destruct Hx as [|y l Hxy _]; cbn.
    + reflexivity.
    + apply stays_before_iff in Hxy. rewrite Hxy. reflexivity.
Qed.

(** Stability: entries of one probability keep their input order. *)
Lemma filter_insert p x l :
  filter (hasProbability p) (insert byProbabilityDesc x l)
  = filter (hasProbability p) (x :: l).
Proof.
  induction l as [|y l IH]; [reflexivity|].
  cbn [insert]. destruct (gt (byProbabilityDesc x y) 0) eqn:E.
  - apply moves_behind_iff in E.
    cbn [filter] in *. rewrite IH.
    destruct (hasProbability p x) eqn:Ex, (hasProbability p y) eqn:Ey;
      try reflexivity.
    unfold hasProbability in Ex, Ey.
    apply Qeq_bool_iff in Ex, Ey. exfalso. lra.
  - reflexivity.
Qed.

Lemma filter_sort p l :
  filter (hasProbability p) (sort byProbabilityDesc l)
  = filter (hasProbability p) l.
Proof.
  induction l as [|x l IH]; [reflexivity|].
  cbn [sort]. rewrite filter_insert. cbn [filter]. rewrite IH. reflexivity.
Qed.

Lemma slice_top5 {A : Type} (l : list A) :
  slice l 0 (Some 5%Z) = firstn 5 l.
Proof.
  unfold slice, relIndex. cbn [Z.ltb Z.compare skipn].
  replace (Z.min 0 (Z.of_nat (length l))) with 0%Z by lia.
  cbn [Z.to_nat skipn].
  destruct (Nat.le_gt_cases 5 (length l)) as [H|H].
  - replace (Z.to_nat _) with 5%nat by lia. reflexivity.
  - replace (Z.to_nat _) with (length l) by lia.
    rewrite firstn_all, firstn_all2 by lia. reflexivity.
Qed.

Lemma sortedCategories_eq d :
  sortedCategories d = firstn 5 (sort byProbabilityDesc d).
Proof. apply slice_top5. Qed.

Lemma firstn_sorted {A : Type} (R : A -> A -> Prop) n : forall l,
  StronglySorted R l -> StronglySorted R (firstn n l).
Proof.
  induction n as [|n IH]; intros l H; [constructor|].
  destruct H as [|x l Hs Hx]; cbn; constructor.
  - apply IH, Hs.
  - rewrite Forall_forall in *. intros y Hy. apply Hx.
    rewrite <- (firstn_skipn n l). apply in_or_app. left. exact Hy.
Qed.

Lemma sortedCategories_sorted d :
  StronglySorted descending (sortedCategories d).
Proof. rewrite sortedCategories_eq. apply firstn_sorted, sort_sorted. Qed.

Lemma sortedCategories_twice d :
  sortedCategories (sortedCategories d) = sortedCategories d.
Proof.
  rewrite (sortedCategories_eq (sortedCategories d)).
  rewrite (sort_of_sorted _ (sortedCategories_sorted d)).
  rewrite sortedCategories_eq, firstn_firstn. reflexivity.
Qed.

(** C4, as the code has it: the ranking is the first five entries of the
    input sorted by descending probability, entries of equal probability
    staying in the order of the input. Together with [rest], the entries
    cut off, the output is a rearrangement of the input, in descending
    order, in which every group of one probability reads as in the
    input. *)
Theorem sortedCategories_is_stable_top5 (d : distribution) :
  exists rest,
    Permutation (sortedCategories d ++ rest) d
    /\ StronglySorted descending (sortedCategories d ++ rest)
    /\ (forall p, filter (hasProbability p) (sortedCategories d ++ rest)
                  = filter (hasProbability p) d)
    /\ length (sortedCategories d) = Nat.min 5 (length d).
Proof.
  exists (skipn 5 (sort byProbabilityDesc d)).
  rewrite sortedCategories_eq, firstn_skipn.
  split; [apply sort_perm|]. split; [apply sort_sorted|].
  split; [intros p; apply filter_sort|].
  rewrite length_firstn, length_sort. reflexivity.
Qed.

(** C4, counterexample: two categories of probability 1/2 come out in the
    order of the input, Token Transfer before DEX Swap, not in the
    alphabetical order of the specification's ranking; and the same two
    pairs listed the other way round come out the other way round. *)
Lemma ties_are_not_alphabetical :
  sortedCategories tied = tied
  /\ category_ranking_spec 5 tied = tiedSwapped
  /\ sortedCategories tied <> category_ranking_spec 5 tied
  /\ (forall x, In x tied <-> In x tiedSwapped)
  /\ sortedCategories tied <> sortedCategories tiedSwapped.
Proof.
  split; [vm_compute; reflexivity|].
  split; [vm_compute; reflexivity|].
  split; [vm_compute; discriminate|].
  split; [|vm_compute; discriminate].
  intros x. unfold tied, tiedSwapped. cbn [In]. tauto.
Qed.

(** C7: a distribution already in descending order of probability is
    returned in the same order (its first five entries), and ranking the
    outcome again changes nothing. *)
Theorem sortedCategories_idempotent (d : distribution)
    (Hsorted : StronglySorted descending d) :
  sortedCategories d = firstn 5 d
  /\ sortedCategories (sortedCategories d) = sortedCategories d.
Proof.
  split.
  - rewrite sortedCategories_eq, (sort_of_sorted d Hsorted). reflexivity.
  - apply sortedCategories_twice.
Qed.

Lemma sortedCategories_idempotent_witness :
  sortedCategories tied = firstn 5 tied
  /\ sortedCategories (sortedCategories tied) = sortedCategories tied.
Proof.
  apply (sortedCategories_idempotent tied).
  repeat constructor; unfold descending; simpl; unfold Qle; simpl; lia.
Defined.

Example ranking_example :
  sortedCategories
    [(lit "a", 10 # 100); (lit "b", 30 # 100); (lit "c", 20 # 100);
     (lit "d", 30 # 100); (lit "e", 5 # 100); (lit "f", 3 # 100);
     (lit "g", 2 # 100)]
  = [(lit "b", 30 # 100); (lit "d", 30 # 100); (lit "c", 20 # 100);
     (lit "a", 10 # 100); (lit "e", 5 # 100)].
Proof. vm_compute. reflexivity. Qed.


(** *** What the list of predictions holds *)

Lemma In_firstn {A : Type} n (l : list A) x : In x (firstn n l) -> In x l.
Proof.
  intros H. rewrite <- (firstn_skipn n l). apply in_or_app. left. exact H.
Qed.

Lemma sorted_app_dominates {A : Type} (R : A -> A -> Prop) l1 : forall l2,
  StronglySorted R (l1 ++ l2) ->
  forall x y, In x l1 -> In y l2 -> R x y.
Proof.
  induction l1 as [|z l1 IH]; intros l2 Hs x y Hx Hy; [destruct Hx|].
  cbn in Hs. inversion Hs as [|? ? Hs' Hz]; subst.
  destruct Hx as [<-|Hx].
  - rewrite Forall_forall in Hz. apply Hz, in_or_app. right. exact Hy.
  - exact (IH l2 Hs' x y Hx Hy).
Qed.

Lemma length_sortedCategories d :
  length (sortedCategories d) = Nat.min 5 (length d).
Proof. rewrite sortedCategories_eq, length_firstn, length_sort. reflexivity. Qed.

(** X22: at most five rows are listed; each is a pair of the response,
    and when the response names every category once the rows have
    distinct names (the keys of the list). *)
Theorem sortedCategories_rows (d : distribution) :
  (length (sortedCategories d) <= 5)%nat
  /\ (forall x, In x (sortedCategories d) -> In x d)
  /\ (NoDup (map fst d) -> NoDup (map fst (sortedCategories d))).
Proof.
  split; [rewrite length_sortedCategories; lia|]. split.
  - intros x Hx. rewrite sortedCategories_eq in Hx.
    apply In_firstn in Hx.
    exact (Permutation_in x (sort_perm byProbabilityDesc d) Hx).
  - intros Hnd. rewrite sortedCategories_eq.
    assert (Hs : NoDup (map fst (sort byProbabilityDesc d))).
    { eapply Permutation_NoDup; [|exact Hnd].
      apply Permutation_map, Permutation_sym, sort_perm. }
    rewrite <- (firstn_skipn 5 (sort byProbabilityDesc d)), map_app in Hs.
    exact (NoDup_app_remove_r _ _ Hs).
Qed.

(** X23: the first row has the highest probability of the whole
    response. *)
Theorem top_row_is_most_probable (d : distribution) (x : jsstring * Q)
    (Hx : In x d) :
  exists top, hd_error (sortedCategories d) = Some top /\ snd x <= snd top.
Proof.
  rewrite sortedCategories_eq.
  pose proof (sort_sorted d) as Hs.
  apply (Permutation_in x (Permutation_sym (sort_perm byProbabilityDesc d)))
    in Hx.
  destruct (sort byProbabilityDesc d) as [|top rest]; [destruct Hx|].
  exists top. split; [reflexivity|].
  inversion Hs as [|? ? _ Htop]; subst.
  destruct Hx as [<-|Hx]; [apply Qle_refl|].
  rewrite Forall_forall in Htop. exact (Htop x Hx).
Qed.

Lemma top_row_is_most_probable_witness :
  exists top, hd_error (sortedCategories sevenCategories) = Some top
              /\ snd (lit "DEX Swap", 20 # 100) <= snd top.
Proof.
  apply (top_row_is_most_probable sevenCategories (lit "DEX Swap", 20 # 100)).
  unfold sevenCategories. cbn [In]. tauto.
Defined.

(** X24: no pair that is cut off has a higher probability than a pair
    that is listed. *)
Theorem dropped_never_outrank_listed (d : distribution)
    (x y : jsstring * Q)
    (Hx : In x (sortedCategories d)) (Hy : In y d)
    (Hdropped : ~ In y (sortedCategories d)) :
  snd y <= snd x.
Proof.
  rewrite sortedCategories_eq in *.
  apply (Permutation_in y (Permutation_sym (sort_perm byProbabilityDesc d)))
    in Hy.
  pose proof (sort_sorted d) as Hs.
  rewrite <- (firstn_skipn 5 (sort byProbabilityDesc d)) in Hs, Hy.
  apply in_app_or in Hy. destruct Hy as [Hy|Hy]; [destruct (Hdropped Hy)|].
  exact (sorted_app_dominates descending _ _ Hs x y Hx Hy).
Qed.

Lemma dropped_never_outrank_listed_witness :
  snd (lit "Other", 2 # 100) <= snd (lit "Staking/Yield", 5 # 100).
Proof.
  apply (dropped_never_outrank_listed sevenCategories
           (lit "Staking/Yield", 5 # 100) (lit "Other", 2 # 100)).
  - vm_compute. tauto.
  - vm_compute. tauto.
  - vm_compute. intros [H|[H|[H|[H|[H|[]]]]]]; discriminate H.
Defined.

(** X25: the All Predictions list is rendered exactly when the response
    names at least two categories. *)
Theorem showAllPredictions_iff (d : distribution) :
  showAllPredictions d = true <-> (2 <= length d)%nat.
Proof.
  unfold showAllPredictions.
  rewrite Nat.ltb_lt, length_sortedCategories. lia.
Qed.

End TransactionClassificationTheorems.

Module AppStateTheorems.
Import AppState JSFacts.

Lemma errorMessage_truthy err m :
  errorMessage err = Ok m -> truthy m = true.
Proof.
  unfold errorMessage, get.
  destruct err; cbn [bind]; try discriminate;
    match goal with
    | |- context [if truthy ?d then _ else _] =>
        destruct (truthy d) eqn:E;
        [intros [= <-]; exact E
        |intros [= <-]; apply or_else_truthy; reflexivity]
    end.
Qed.

Lemma errorMessage_defined err :
  ~ nullish err -> exists m, errorMessage err = Ok m.
Proof.
  intros H. unfold errorMessage, get.
  destruct err; cbn [bind];
    try (exfalso; apply H; unfold nullish; tauto);
    match goal with
    | |- context [if truthy ?d then _ else _] =>
        destruct (truthy d); eauto
    end.
Qed.

(** X6: while a request is in flight only the condition of the loading
    skeleton holds; once the request has settled, loading is off and
    exactly one of the conditions of the results, of the error box and of
    the empty state holds, so exactly one of these three blocks is
    selected for rendering. *)
Theorem one_view_at_a_time (outcome : settled) (st : state) :
  let during := begin st in
  let after := fst (handleSubmit outcome st) in
  (showLoading during = true /\ showResults during = false
   /\ showError during = false /\ showEmpty during = false)
  /\ showLoading after = false
  /\ ((showResults after = true /\ showError after = false
       /\ showEmpty after = false)
      \/ (showResults after = false /\ showError after = true
          /\ showEmpty after = false)
      \/ (showResults after = false /\ showError after = false
          /\ showEmpty after = true)).
Proof.
  cbv zeta. split; [repeat split|].
  unfold handleSubmit, finish, begin, showLoading, showResults, showError,
    showEmpty.
  cbn [loading result error].
  destruct outcome as [data|err].
  - cbn [fst loading result error truthy].
    split; [reflexivity|]. destruct (truthy data); cbn; tauto.
  - destruct (errorMessage err) as [m|e] eqn:E; cbn [fst loading result error].
    + apply errorMessage_truthy in E. rewrite E. cbn. tauto.
    + cbn. tauto.
Qed.

(** X7: a request rejected with anything but [undefined] or [null] ends
    with loading off, the result state null, the error state set to a
    truthy message, and one error toast raised with the same message;
    when the response body has a truthy detail, the message is that
    detail, whatever its type. *)
Theorem failed_request_shows_error (err : value) (st : state)
    (Herr : ~ nullish err) :
  exists message,
    handleSubmit (Rejected err) st
    = ({| loading := false; result := VNull; error := message |},
       [ToastError message])
    /\ truthy message = true
    /\ (let detail := opt_get (opt_get (opt_get err "response") "data")
                              "detail" in
        truthy detail = true -> message = detail).
Proof.
  destruct (errorMessage_defined err Herr) as [m Hm].
  exists m. split; [|split].
  - unfold handleSubmit, finish, begin. rewrite Hm. reflexivity.
  - apply (errorMessage_truthy err m Hm).
  - cbv zeta. intros Hd. revert Hm. unfold errorMessage, get.
    destruct err; cbn [bind];
      try (exfalso; apply Herr; unfold nullish; tauto);
      rewrite Hd; intros [= <-]; reflexivity.
Qed.

Lemma failed_request_shows_error_witness :
  exists message,
    handleSubmit
      (Rejected (VObj [(lit "message", VStr (lit "Network Error"))]))
      {| loading := false; result := VNull; error := VNull |}
    = ({| loading := false; result := VNull; error := message |},
       [ToastError message])
    /\ truthy message = true
    /\ (let detail :=
          opt_get (opt_get (opt_get
            (VObj [(lit "message", VStr (lit "Network Error"))])
            "response") "data") "detail" in
        truthy detail = true -> message = detail).
Proof.
  apply (failed_request_shows_error
           (VObj [(lit "message", VStr (lit "Network Error"))])).
  intros [H|H]; discriminate H.
Defined.

(** X8: a request that resolves with an empty body (null, the empty
    text, 0 or false) raises the success toast, yet the page shows the
    empty state and no results. *)
Theorem empty_response_shows_empty_state (data : value) (st : state)
    (Hempty : truthy data = false) :
  showEmpty (fst (handleSubmit (Resolved data) st)) = true
  /\ showResults (fst (handleSubmit (Resolved data) st)) = false
  /\ snd (handleSubmit (Resolved data) st)
     = [ToastSuccess (lit "Transaction analyzed successfully!")].
Proof.
  unfold handleSubmit, finish, begin, showEmpty, showResults.
  cbn [fst snd loading result error]. rewrite Hempty. repeat split.
Qed.

Lemma empty_response_shows_empty_state_witness :
  showEmpty (fst (handleSubmit (Resolved VNull)
                    {| loading := false; result := VNull; error := VNull |}))
  = true
  /\ showResults (fst (handleSubmit (Resolved VNull)
                    {| loading := false; result := VNull; error := VNull |}))
     = false
  /\ snd (handleSubmit (Resolved VNull)
            {| loading := false; result := VNull; error := VNull |})
     = [ToastSuccess (lit "Transaction analyzed successfully!")].
Proof.
  apply (empty_response_shows_empty_state VNull). reflexivity.
Defined.

End AppStateTheorems.

Module TokenFlowAddressTheorems.
Import ExplanationPanel ExplanationPanelTheorems TokenFlowDiagram Samples.

Lemma formatAddress_absent :
  formatAddress None = Ok (lit "Unknown")
  /\ formatAddress (Some []) = Ok (lit "Unknown").
Proof. split; reflexivity. Qed.

Lemma formatAddress_kept a :
  (0 < length a < 15)%nat -> formatAddress (Some a) = Ok a.
Proof.
  intros H. unfold formatAddress.
  destruct a as [|c a]; [cbn in H; lia|].
  cbn [isFalsy truthy negb get_length bind orUnknown].
  destruct (Z.of_nat (length (c :: a)) <? 15)%Z eqn:E; [reflexivity|lia].
Qed.

Lemma formatAddress_cut a :
  (15 <= length a)%nat ->
  formatAddress (Some a) = Ok (firstn 6 a ++ lit "..." ++ lastChars 4 a).
Proof.
  intros H. unfold formatAddress.
  destruct a as [|c a]; [cbn in H; lia|].
  cbn [isFalsy truthy negb get_length bind call_slice].
  destruct (Z.of_nat (length (c :: a)) <? 15)%Z eqn:E; [lia|].
  change 6%Z with (Z.of_nat 6). change (-4)%Z with (- Z.of_nat 4)%Z.
  rewrite slice_prefix by lia. rewrite slice_suffix by lia.
  reflexivity.
Qed.

Lemma formatAddress_cases addr :
  exists out, formatAddress addr = Ok out
    /\ (1 <= length out <= 14)%nat
    /\ match addr with
       | None | Some [] => out = lit "Unknown"
       | Some a =>
           if (length a <? 15)%nat then out = a
           else out = firstn 6 a ++ lit "..." ++ lastChars 4 a
       end.
Proof.
  destruct addr as [[|c a]|];
    [exists (lit "Unknown"); repeat split; cbn; lia | |
     exists (lit "Unknown"); repeat split; cbn; lia].
  destruct (length (c :: a) <? 15)%nat eqn:E.
  - apply Nat.ltb_lt in E. exists (c :: a).
    split; [apply formatAddress_kept; cbn in *; lia|].
    split; [cbn in *; lia|reflexivity].
  - apply Nat.ltb_ge in E.
    exists (firstn 6 (c :: a) ++ lit "..." ++ lastChars 4 (c :: a)).
    split; [apply formatAddress_cut, E|]. split; [|reflexivity].
    rewrite !length_app, length_firstn, length_lastChars by lia.
    cbn [length lit list_ascii_of_string map] in *. lia.
Qed.

(** X12: the flow diagram always has a text for an address: Unknown
    when the address is absent or empty, the address itself below 15
    characters, and otherwise its first 6 characters, three dots and its
    last 4; the text is never empty and never longer than 14
    characters, and no input makes the function throw. *)
Theorem formatAddress_fits (addr : option jsstring) :
  exists out, formatAddress addr = Ok out
    /\ (1 <= length out <= 14)%nat
    /\ match addr with
       | None | Some [] => out = lit "Unknown"
       | Some a =>
           if (length a <? 15)%nat then out = a
           else out = firstn 6 a ++ lit "..." ++ lastChars 4 a
       end.
Proof. apply formatAddress_cases. Qed.

(** X13: the text the flow diagram shows for an address is left as it
    is when it is formatted again. *)
Theorem formatAddress_stable (addr : option jsstring) :
  exists out, formatAddress addr = Ok out /\ formatAddress (Some out) = Ok out.
Proof.
  destruct (formatAddress_cases addr) as (out & H & Hlen & _).
  exists out. split; [exact H|]. apply formatAddress_kept. lia.
Qed.

Example formatAddress_of_address :
  formatAddress (Some address) = Ok (lit "0x742d...f44e").
Proof. vm_compute. reflexivity. Qed.

End TokenFlowAddressTheorems.
